(** * pymesos.interface: the callback and driver interface classes

    A shallow embedding of [src/pymesos/interface.py].  The module defines
    eight classes whose methods consist of a docstring only, except for the
    two [error] callbacks, which print to [sys.stderr].  The embedding keeps
    the module as data (one record per [def], one table per class) and gives
    it the semantics of a Python call: attribute lookup along the bases,
    binding of positional arguments to parameters and defaults, execution
    of the body, [None] when the body falls off its end.  The driver that
    the interface stands for is not in the source; where a property is
    about it, it is modelled from the specification, in a section of its
    own. *)

From Stdlib Require Import ZArith List String Ascii Lia.
From Stdlib Require Import DecimalString HexadecimalString.
From stdpp Require Import gmap strings.
Import ListNotations.

Local Open Scope string_scope.
Local Open Scope list_scope.

(** ** Classes of the module *)

Inductive class :=
  | Scheduler
  | SchedulerDriver
  | Executor
  | ExecutorDriver
  | OperatorDaemonDriver
  | OperatorMasterDriver
  | OperatorMaster
  | OperatorAgentDriver.

Definition classes : list class :=
  [Scheduler; SchedulerDriver; Executor; ExecutorDriver; OperatorDaemonDriver;
   OperatorMasterDriver; OperatorMaster; OperatorAgentDriver].

Definition class_name (c : class) : string :=
  match c with
  | Scheduler => "Scheduler"
  | SchedulerDriver => "SchedulerDriver"
  | Executor => "Executor"
  | ExecutorDriver => "ExecutorDriver"
  | OperatorDaemonDriver => "OperatorDaemonDriver"
  | OperatorMasterDriver => "OperatorMasterDriver"
  | OperatorMaster => "OperatorMaster"
  | OperatorAgentDriver => "OperatorAgentDriver"
  end.

(** The base named in the [class] statement; [None] stands for [object]. *)
Definition base (c : class) : option class :=
  match c with
  | OperatorMasterDriver => Some OperatorDaemonDriver
  | OperatorAgentDriver => Some OperatorDaemonDriver
  | _ => None
  end.

(** ** Values

    The arguments the interface is called with: [None], booleans, integers,
    strings, instances of the module's classes (identified by class and
    address), and flat tuples of those. *)

Inductive scalar :=
  | SNone
  | SBool (b : bool)
  | SInt (z : Z)
  | SStr (s : string)
  | SObj (c : class) (addr : N).

Inductive value :=
  | VScalar (x : scalar)
  | VTuple (items : list scalar).

Definition VNone : value := VScalar SNone.
Definition VFalse : value := VScalar (SBool false).

(** The dotted name under which [src/pymesos/interface.py] is imported. *)
Definition module_name : string := "pymesos.interface".

(** [str(x)].  No class of the module overrides [__str__] or [__repr__], so an
    instance prints as [object] prints it. *)
Definition py_str (x : scalar) : string :=
  match x with
  | SNone => "None"
  | SBool true => "True"
  | SBool false => "False"
  | SInt z => DecimalString.NilZero.string_of_int (Z.to_int z)
  | SStr s => s
  | SObj c addr =>
      "<" ++ module_name ++ "." ++ class_name c ++ " object at 0x"
          ++ HexadecimalString.NilZero.string_of_uint (N.to_hex_uint addr) ++ ">"
  end.

(** ** Exceptions and the [%] operator on strings *)

Inductive exn :=
  | AttributeError
  | NameError
  | TypeError
  | ValueError.

Inductive result (A : Type) :=
  | Ok (a : A)
  | Err (e : exn).
Arguments Ok {A} a.
Arguments Err {A} e.

Definition result_map {A B} (f : A -> B) (r : result A) : result B :=
  match r with
  | Ok a => Ok (f a)
  | Err e => Err e
  end.

(** The right operand of [%]: a tuple supplies one argument per conversion,
    any other value is the single argument. *)
Definition format_args (v : value) : list scalar :=
  match v with
  | VTuple items => items
  | VScalar x => [x]
  end.

(** [fmt % args] for the conversions the module uses, [%s] (and the escape
    [%%]).  Too few arguments and arguments left over are both a
    [TypeError]; a lone [%] at the end is a [ValueError].  Other conversion
    characters do not occur in the module and are rejected. *)
Fixpoint percent (fmt : string) (args : list scalar) : result string :=
  match fmt with
  | EmptyString =>
      match args with
      | [] => Ok EmptyString
      | _ :: _ => Err TypeError
      end
  | String ch rest =>
      if Ascii.eqb ch "%" then
        match rest with
        | EmptyString => Err ValueError
        | String conv rest' =>
            if Ascii.eqb conv "s" then
              match args with
              | [] => Err TypeError
              | x :: args' => result_map (String.append (py_str x)) (percent rest' args')
              end
            else if Ascii.eqb conv "%" then
              result_map (String "%") (percent rest' args)
            else Err ValueError
        end
      else result_map (String ch) (percent rest args)
  end.

(** ** The interpreter state

    What a call can observe or change: the text written to the two output
    streams and the attribute dictionary ([__dict__]) of every live
    instance, keyed by address. *)

Record world := {
  stdout : string;
  stderr : string;
  heap : gmap N (gmap string value)
}.

Definition write_stderr (text : string) (w : world) : world :=
  {| stdout := stdout w; stderr := stderr w ++ text; heap := heap w |}.

Definition alloc (addr : N) (w : world) : world :=
  {| stdout := stdout w; stderr := stderr w; heap := <[addr := ∅]> (heap w) |}.

(** A process that has printed nothing and holds no instance. *)
Definition w_init : world := {| stdout := ""; stderr := ""; heap := ∅ |}.

(** How a call ends: it returns, it raises, or it leaves the module.
    [Beyond] stands for a call that reaches code the module does not
    define, a method of [object] or of a built-in type; the embedding does
    not describe what such a call returns or changes. *)
Inductive outcome :=
  | Returned (v : value) (w : world)
  | Raised (e : exn) (w : world)
  | Beyond.

(** Client code is a computation over the world that returns or raises. *)
Definition M : Type := world -> outcome.

Definition ret (v : value) : M := fun w => Returned v w.

Definition bind (m : M) (k : value -> M) : M :=
  fun w =>
    match m w with
    | Returned v w' => k v w'
    | Raised e w' => Raised e w'
    | Beyond => Beyond
    end.

Notation "x <- m ;; k" := (bind m (fun x => k))
  (at level 100, m at next level, right associativity).
Notation "m ;;; k" := (bind m (fun _ => k))
  (at level 100, right associativity).

(** ** Function definitions

    A [def] of the module: its name, the parameters after [self] that have
    no default, the parameters that have one, and its body. *)

Inductive stmt :=
  | Docstring
  | PrintStderr (fmt : string) (arg : string).

Record function := {
  fn_name : string;
  fn_params : list string;
  fn_defaults : list (string * value);
  fn_body : list stmt
}.

Definition env : Type := list (string * value).

Fixpoint env_lookup (x : string) (e : env) : option value :=
  match e with
  | [] => None
  | (y, v) :: e' => if String.eqb x y then Some v else env_lookup x e'
  end.

(** Positional arguments left once the parameters without default are
    filled go to the parameters with a default, in order; a default is used
    where no argument is left; an argument with no parameter left is an
    error. *)
Fixpoint bind_defaults (optional : list (string * value)) (args : list value)
  : option env :=
  match optional, args with
  | [], [] => Some []
  | [], _ :: _ => None
  | (p, d) :: optional', [] => option_map (cons (p, d)) (bind_defaults optional' [])
  | (p, _) :: optional', a :: args' =>
      option_map (cons (p, a)) (bind_defaults optional' args')
  end.

Fixpoint bind_params (required : list string) (optional : list (string * value))
    (args : list value) : option env :=
  match required with
  | [] => bind_defaults optional args
  | p :: required' =>
      match args with
      | [] => None
      | a :: args' => option_map (cons (p, a)) (bind_params required' optional args')
      end
  end.

(** The number of positional arguments the signature takes. *)
Definition accepts (f : function) (n : nat) : bool :=
  Nat.leb (length (fn_params f)) n
  && Nat.leb n (length (fn_params f) + length (fn_defaults f)).

Definition newline : string := String (ascii_of_nat 10) EmptyString.

(** A body runs statement by statement; a docstring is an expression
    statement with no effect; [print(fmt % x, file=sys.stderr)] writes the
    formatted text and a newline; a body that reaches its end returns
    [None]. *)
Fixpoint exec_body (b : list stmt) (e : env) (w : world) : outcome :=
  match b with
  | [] => Returned VNone w
  | Docstring :: b' => exec_body b' e w
  | PrintStderr fmt x :: b' =>
      match env_lookup x e with
      | None => Raised NameError w
      | Some v =>
          match percent fmt (format_args v) with
          | Err ex => Raised ex w
          | Ok text => exec_body b' e (write_stderr (text ++ newline) w)
          end
      end
  end.

(** ** The class bodies

    One entry per [def], in source order.  [doc] is a method whose body is
    its docstring; [doc_opt] one that also has parameters with defaults. *)

Definition doc (name : string) (params : list string) : function :=
  {| fn_name := name; fn_params := params; fn_defaults := [];
     fn_body := [Docstring] |}.

Definition doc_opt (name : string) (params : list string)
    (defaults : list (string * value)) : function :=
  {| fn_name := name; fn_params := params; fn_defaults := defaults;
     fn_body := [Docstring] |}.

Definition Scheduler_error : function :=
  {| fn_name := "error"; fn_params := ["driver"; "message"]; fn_defaults := [];
     fn_body := [Docstring; PrintStderr "Error from Mesos: %s " "message"] |}.

Definition Executor_error : function :=
  {| fn_name := "error"; fn_params := ["driver"; "message"]; fn_defaults := [];
     fn_body := [Docstring; PrintStderr "Error from Mesos: %s" "message"] |}.

Definition Scheduler_methods : list function :=
  [ doc "registered" ["driver"; "frameworkId"; "masterInfo"];
    doc "reregistered" ["driver"; "masterInfo"];
    doc "disconnected" ["driver"];
    doc "processHeartBeat" [];
    doc "resourceOffers" ["driver"; "offers"];
    doc "inverseOffers" ["driver"; "offers"];
    doc "offerRescinded" ["driver"; "offerId"];
    doc "inverseOfferRescinded" ["driver"; "offerId"];
    doc "statusUpdate" ["driver"; "status"];
    doc "operationStatusUpdate" ["driver"; "status"];
    doc "frameworkMessage" ["driver"; "executorId"; "slaveId"; "message"];
    doc "slaveLost" ["driver"; "slaveId"];
    doc "executorLost" ["driver"; "executorId"; "slaveId"; "status"];
    Scheduler_error ].

Definition SchedulerDriver_methods : list function :=
  [ doc "start" [];
    doc_opt "stop" [] [("failover", VFalse)];
    doc "abort" [];
    doc "join" [];
    doc "run" [];
    doc "requestResources" ["requests"];
    doc_opt "launchTasks" ["offerIds"; "tasks"] [("filters", VNone)];
    doc "killTask" ["taskId"];
    doc_opt "acceptOffers" ["offerIds"; "operations"] [("filters", VNone)];
    doc_opt "acceptInverseOffers" ["offer_ids"] [("filters", VNone)];
    doc_opt "declineOffer" ["offerId"] [("filters", VNone)];
    doc_opt "declineInverseOffer" ["offer_ids"] [("filters", VNone)];
    doc "reviveOffers" [];
    doc "suppressOffers" [];
    doc "acknowledgeStatusUpdate" ["status"];
    doc "acknowledgeOperationStatusUpdate" ["status"];
    doc "sendFrameworkMessage" ["executorId"; "slaveId"; "data"];
    doc "reconcileTasks" ["tasks"] ].

Definition Executor_methods : list function :=
  [ doc "registered" ["driver"; "executorInfo"; "frameworkInfo"; "slaveInfo"];
    doc "reregistered" ["driver"; "slaveInfo"];
    doc "disconnected" ["driver"];
    doc "launchTask" ["driver"; "task"];
    doc "launchTaskGroup" ["driver"; "task_infos"];
    doc "killTask" ["driver"; "taskId"];
    doc "frameworkMessage" ["driver"; "message"];
    doc "shutdown" ["driver"];
    Executor_error ].

Definition ExecutorDriver_methods : list function :=
  [ doc "start" [];
    doc "stop" [];
    doc "abort" [];
    doc "join" [];
    doc "run" [];
    doc "sendStatusUpdate" ["status"];
    doc "sendFrameworkMessage" ["data"] ].

Definition OperatorDaemonDriver_methods : list function :=
  [ doc "getHealth" [];
    doc "getFlags" [];
    doc "getVersion" [];
    doc "getMetrics" ["timeout"];
    doc "getLoggingLevel" [];
    doc "setLoggingLevel" ["level"; "duration"];
    doc "listFiles" ["path"];
    doc "readFile" ["path"; "offset"; "length"];
    doc "getState" [];
    doc "getFrameworks" [];
    doc "getExecutors" [];
    doc "getTasks" [] ].

Definition OperatorMasterDriver_methods : list function :=
  [ doc "start" [];
    doc "stop" [];
    doc "abort" [];
    doc "join" [];
    doc "run" [];
    doc "getAgents" [];
    doc "getRoles" [];
    doc "getWeights" [];
    doc "updateWeights" ["weight_infos"];
    doc "getMaster" [];
    doc "reserveResources" ["agent_id"; "resources"];
    doc "unreserveResources" ["agent_id"; "resources"];
    doc "createVolumes" ["agent_id"; "volumes"];
    doc "destroyVolumes" ["agent_id"; "volumes"];
    doc "getMaintenanceStatus" [];
    doc "getMaintenanceSchedule" [];
    doc "updateMaintenanceSchedule" ["windows"];
    doc "startMaintenance" ["machines"];
    doc "stopMaintenance" ["machines"];
    doc "getQuota" [];
    doc "setQuota" ["quota_request"];
    doc "removeQuota" ["role"];
    doc "markAgentGone" ["agent_id"] ].

Definition OperatorMaster_methods : list function :=
  [ doc "taskAdded" ["task_info"];
    doc "taskUpdated" ["task_info"];
    doc "frameworkAdded" ["framework_info"];
    doc "frameworkUpdated" ["framework_info"];
    doc "frameworkRemoved" ["framework_info"];
    doc "agentAdded" ["agent_info"];
    doc "agentRemoved" ["agent_id"] ].

Definition OperatorAgentDriver_methods : list function :=
  [ doc "getContainers" [];
    doc "launchNestedContainer" ["launch_nested_container"];
    doc_opt "waitNestedContainer" ["container_id"] [("parent_id", VNone)];
    doc_opt "killNestedContainer" ["container_id"] [("parent_id", VNone)];
    doc "launchNestedContainerSession" ["launch_nested_container_session"];
    doc "attachContainerInput" ["container_id"];
    doc "attachContainerOutput" ["container_id"];
    doc_opt "removeNestedContainer" ["container_id"] [("parent_id", VNone)];
    doc "addResourceProviderConfig" ["info"];
    doc "updateResourceProviderConfig" ["info"];
    doc "removeResourceProviderConfig" ["type"; "name"];
    doc_opt "pruneImages" [] [("excluded_images", VNone)] ].

Definition methods (c : class) : list function :=
  match c with
  | Scheduler => Scheduler_methods
  | SchedulerDriver => SchedulerDriver_methods
  | Executor => Executor_methods
  | ExecutorDriver => ExecutorDriver_methods
  | OperatorDaemonDriver => OperatorDaemonDriver_methods
  | OperatorMasterDriver => OperatorMasterDriver_methods
  | OperatorMaster => OperatorMaster_methods
  | OperatorAgentDriver => OperatorAgentDriver_methods
  end.

(** ** Attribute lookup and calls *)

(** The last [def] of a name in a class body is the one the class keeps; no
    name is defined twice in a class of this module, so the first match is
    that one. *)
Fixpoint find_method (name : string) (fs : list function) : option function :=
  match fs with
  | [] => None
  | f :: fs' => if String.eqb name (fn_name f) then Some f else find_method name fs'
  end.

(** The classes of the module on the method resolution order: the class,
    then its base.  Every base in the module derives from [object]
    directly ([base_is_root]); [object], which ends the order, is not a
    class of the module and is accounted for in [call]. *)
Definition mro (c : class) : list class :=
  match base c with
  | Some b => [c; b]
  | None => [c]
  end.

Fixpoint lookup_mro (cs : list class) (name : string) : option function :=
  match cs with
  | [] => None
  | c :: cs' =>
      match find_method name (methods c) with
      | Some f => Some f
      | None => lookup_mro cs' name
      end
  end.

Definition resolve (c : class) (name : string) : option function :=
  lookup_mro (mro c) name.

(** The names that begin with two underscores are the interpreter's:
    every attribute [object] gives an instance ([__init__], [__repr__],
    [__setattr__], [__dict__] and the like) is among them, and none is
    defined by the module. *)
Definition is_reserved (name : string) : bool := String.prefix "__" name.

(** The call [obj.name(args...)] of a method on an instance [obj] of class
    [c] at address [addr].  The name is looked up on the class: the module
    never assigns an instance attribute, and an instance attribute that
    shadowed the name would make the call something other than a call of
    the method.  A name that no class of the module defines is looked up on
    [object] last: a reserved name leaves the module, any other name is
    missing. *)
Definition call (c : class) (addr : N) (name : string) (args : list value) : M :=
  fun w =>
    match resolve c name with
    | None => if is_reserved name then Beyond else Raised AttributeError w
    | Some f =>
        match bind_params (fn_params f) (fn_defaults f) args with
        | None => Raised TypeError w
        | Some e => exec_body (fn_body f) (("self", VScalar (SObj c addr)) :: e) w
        end
    end.

(** The same call on a value: an instance of a class of the module is
    called as above; a call on any other value is a call of a built-in
    type's attribute and leaves the module. *)
Definition invoke (recv : value) (name : string) (args : list value) : M :=
  match recv with
  | VScalar (SObj c addr) => call c addr name args
  | _ => fun _ => Beyond
  end.

(** The call [c(args...)].  No class of the module defines [__init__] or [__new__], so
    construction is [object]'s: it takes no argument and yields an instance
    with an empty attribute dictionary, at an address that is not null and
    not in use. *)
Definition construct (c : class) (args : list value) : M :=
  fun w =>
    match args with
    | [] =>
        let addr := fresh ({[0%N]} ∪ dom (heap w)) in
        Returned (VScalar (SObj c addr)) (alloc addr w)
    | _ :: _ => Raised TypeError w
    end.

(** ** The export list

    [__all__] is written as a parenthesised tuple; each element of the
    display is a run of adjacent string literals, which Python joins into
    one string.  The fifth element has two literals: no comma separates
    ['OperatorMasterDriver'] from ['OperatorMaster']. *)
Definition all_display : list (list string) :=
  [ ["Executor"];
    ["ExecutorDriver"];
    ["Scheduler"];
    ["SchedulerDriver"];
    ["OperatorMasterDriver"; "OperatorMaster"];
    ["OperatorAgentDriver"] ].

Definition join_literals (literals : list string) : string :=
  fold_right String.append EmptyString literals.

Definition __all__ : list string := map join_literals all_display.

(** ** Vocabulary of the properties *)

(** The two callbacks whose body is more than a docstring. *)
Definition is_error_handler (c : class) (name : string) : bool :=
  match c with
  | Scheduler | Executor => String.eqb name "error"
  | _ => false
  end.

(** Whether the class body itself holds a [def] of the name. *)
Definition defines (c : class) (name : string) : bool :=
  match find_method name (methods c) with
  | Some _ => true
  | None => false
  end.

(** Whether an instance of the class has the attribute, own or inherited. *)
Definition provides (c : class) (name : string) : bool :=
  match resolve c name with
  | Some _ => true
  | None => false
  end.

Definition lifecycle_ops : list string := ["start"; "stop"; "abort"; "join"].

Definition driver_variants : list class :=
  [SchedulerDriver; ExecutorDriver; OperatorMasterDriver; OperatorAgentDriver].

(** The classes that carry the lifecycle operations in their own body. *)
Definition lifecycle_classes : list class :=
  [SchedulerDriver; ExecutorDriver; OperatorMasterDriver].

Definition is_lifecycle (name : string) : bool :=
  existsb (String.eqb name) ("run" :: lifecycle_ops).

(** The operational methods of [SchedulerDriver]: every [def] of the class
    that is not a lifecycle operation. *)
Definition operational_calls : list string :=
  filter (fun name => negb (is_lifecycle name)) (map fn_name SchedulerDriver_methods).

(** An argument passed or left to its default. *)
Definition opt_arg (a : option value) : list value :=
  match a with
  | Some v => [v]
  | None => []
  end.

(** [run()] in the words of its docstring, "Starts and immediately joins":
    [start()] and then [join()] on the same driver, the result being
    [join]'s. *)
Definition start_then_join (c : class) (addr : N) : M :=
  call c addr "start" [] ;;; call c addr "join" [].

(** [for offerId in offerIds: driver.declineOffer(offerId, filters)], the
    filters passed when given. *)
Fixpoint decline_each (addr : N) (offerIds : list scalar) (filters : option value) : M :=
  match offerIds with
  | [] => ret VNone
  | offerId :: rest =>
      call SchedulerDriver addr "declineOffer" (VScalar offerId :: opt_arg filters) ;;;
      decline_each addr rest filters
  end.

(** [launchTasks(offerIds, [], filters)]: the task collection is empty. *)
Definition launch_nothing (addr : N) (offerIds : list scalar) (filters : option value) : M :=
  call SchedulerDriver addr "launchTasks" (VTuple offerIds :: VTuple [] :: opt_arg filters).

(** ** Client programs used as test inputs *)

(** A driver is built, started, aborted, and then asked to launch a task. *)
Definition launch_after_abort : M :=
  d <- construct SchedulerDriver [] ;;
  invoke d "start" [] ;;;
  invoke d "abort" [] ;;;
  invoke d "launchTasks" [VTuple [SStr "O1"]; VTuple [SStr "T1"]].

(** A driver is started twice. *)
Definition start_twice : M :=
  d <- construct SchedulerDriver [] ;;
  invoke d "start" [] ;;;
  invoke d "start" [].

(** A driver built the only way the class allows, with no request for
    explicit acknowledgements, is started and acknowledges a status update. *)
Definition acknowledge_on_default_driver : M :=
  d <- construct SchedulerDriver [] ;;
  invoke d "start" [] ;;;
  invoke d "acknowledgeStatusUpdate" [VScalar (SStr "T1/TASK_RUNNING")].

(** A state in which the driver at address 1 keeps the delivered update
    T1/TASK_RUNNING in an attribute of its own, as a subclass or a mock that
    tracks pending acknowledgements would. *)
Definition w_pending : world :=
  {| stdout := ""; stderr := "";
     heap := {[ 1%N := {[ "pending" := VTuple [SStr "T1/TASK_RUNNING"] ]} ]} |}.

(** The state a call ends in, when it ends inside the module. *)
Definition final_world (o : outcome) : option world :=
  match o with
  | Returned _ w => Some w
  | Raised _ w => Some w
  | Beyond => None
  end.

(** ** Sequences of calls *)

Record invocation := {
  inv_class : class;
  inv_addr : N;
  inv_name : string;
  inv_args : list value
}.

Definition is_error_call (i : invocation) : bool :=
  is_error_handler (inv_class i) (inv_name i).

(** The calls made one after the other; an exception ends the sequence. *)
Fixpoint run_calls (calls : list invocation) : M :=
  match calls with
  | [] => ret VNone
  | i :: rest =>
      call (inv_class i) (inv_addr i) (inv_name i) (inv_args i) ;;; run_calls rest
  end.

(** [for message in messages: obj.error(driver, message)] on an instance of
    class [c]. *)
Fixpoint report_each (c : class) (addr : N) (driver : value) (messages : list scalar) : M :=
  match messages with
  | [] => ret VNone
  | message :: rest =>
      call c addr "error" [driver; VScalar message] ;;; report_each c addr driver rest
  end.

(** The line each [error] callback prints for a message: the scheduler's
    format string ends in a space, the executor's does not. *)
Definition Scheduler_line (message : scalar) : string :=
  "Error from Mesos: " ++ py_str message ++ " " ++ newline.

Definition Executor_line (message : scalar) : string :=
  "Error from Mesos: " ++ py_str message ++ newline.

Definition concat_lines (lines : list string) : string :=
  fold_right String.append EmptyString lines.

(** ** Importing the module's names

    The names the module body binds, in source order: the [__future__]
    import, [sys], [__all__] and the eight classes.  The names the
    interpreter gives every module ([__name__], [__doc__] and the like) are
    reserved names and are not listed. *)
Definition module_globals : list string :=
  ["print_function"; "sys"; "__all__"] ++ map class_name classes.

(** How a star import ends: every entry bound, an exception, or an entry
    that is a reserved name, which the embedding does not follow. *)
Inductive import_end :=
  | Bound_all
  | Import_raises (e : exn)
  | Import_beyond.

(** [from pymesos.interface import *]: since the module has an [__all__],
    its entries are fetched from the module one after the other and bound
    in the importing scope; an entry the module does not have raises
    [AttributeError], the names fetched before it staying bound. *)
Fixpoint import_names (names globals bound : list string) : list string * import_end :=
  match names with
  | [] => (bound, Bound_all)
  | name :: rest =>
      if is_reserved name then (bound, Import_beyond)
      else if existsb (String.eqb name) globals
      then import_names rest globals (bound ++ [name])
      else (bound, Import_raises AttributeError)
  end.

Definition star_import : list string * import_end :=
  import_names __all__ module_globals [].

(** ** The driver the interface stands for

    [SchedulerDriver] and [ExecutorDriver] declare the operations of a
    driver, [Scheduler] and [Executor] the callbacks a driver fires.  The
    driver itself, with its lifecycle, its acknowledgement ledger and its
    delivery of events to the callbacks, is not in the source; the
    definitions below follow the design the specification gives of it.
    The callbacks they fire are the embedded ones of the source. *)

(** Modelled from the spec: the lifecycle state of a driver, which no class
    of the source holds (data model, Driver: the lifecycle state is one of
    Unstarted, Running, Stopped, Aborted). *)
Inductive lifecycle :=
  | Unstarted
  | Running
  | Stopped
  | Aborted.

(** Modelled from the spec: the acknowledgement mode, which the source has
    no constructor argument for (acknowledgement ledger: two modes selected
    at driver construction, implicit and explicit). *)
Inductive ack_mode :=
  | Implicit
  | Explicit.

(** Modelled from the spec: a task status update, a protobuf message the
    source only passes along (data model, TaskStatus: taskId, state,
    optional uuid for explicit acknowledgement). *)
Record task_status := {
  ts_taskId : string;
  ts_state : string;
  ts_uuid : option string
}.


(** Modelled from the spec: an entry of the pending-acknowledgement ledger,
    absent from the source (data model: statusId, sentAt, retryCount). *)
Record ledger_entry := {
  statusId : task_status;
  sentAt : N;
  retryCount : nat
}.

(** Modelled from the spec: the state of a driver, absent from the source:
    its lifecycle state, the acknowledgement mode it was constructed with
    and its ledger. *)
Record driver := {
  d_lifecycle : lifecycle;
  d_mode : ack_mode;
  d_ledger : list ledger_entry
}.

(** Modelled from the spec: a transition of the lifecycle state. *)
Definition with_lifecycle (l : lifecycle) (d : driver) : driver :=
  {| d_lifecycle := l; d_mode := d_mode d; d_ledger := d_ledger d |}.






(** Modelled from the spec: an event that reaches the driver from the
    master (inbound callback surface): the callback it is meant for and the
    arguments after the driver. *)
Record inbound := {
  ev_name : string;
  ev_args : list value
}.

(** Modelled from the spec: a callback that fired, with the lifecycle state
    the driver was in when it fired. *)
Record fired := {
  fired_name : string;
  fired_in : lifecycle
}.

(** Modelled from the spec: the driver delivering events, with the
    interpreter state the callbacks run in and the callbacks fired so far. *)
Record dispatcher := {
  disp_driver : driver;
  disp_world : world;
  disp_log : list fired
}.

(** Modelled from the spec: a driver that has fired no callback yet. *)
Definition initial (d : driver) (w : world) : dispatcher :=
  {| disp_driver := d; disp_world := w; disp_log := [] |}.

(** Modelled from the spec: the delivery of an inbound event to the
    callbacks, code the source does not have.  Events are delivered one at a
    time, and only by a running driver (an abort blocks further callback
    delivery); a fatal error is signalled through the [error] callback, the
    driver being moved to Aborted before the callback fires.  The callback
    fired is the source's method of the handler object, called with the
    driver and the event's arguments. *)
Definition deliver (handler : class) (haddr : N) (driver_ref : value) (ev : inbound)
    (st : dispatcher) : dispatcher :=
  match d_lifecycle (disp_driver st) with
  | Running =>
      let d :=
        if String.eqb (ev_name ev) "error"
        then with_lifecycle Aborted (disp_driver st)
        else disp_driver st in
      {| disp_driver := d;
         disp_world :=
           match final_world (call handler haddr (ev_name ev) (driver_ref :: ev_args ev)
                                (disp_world st)) with
           | Some w => w
           | None => disp_world st
           end;
         disp_log := disp_log st ++ [{| fired_name := ev_name ev; fired_in := d_lifecycle d |}] |}
  | _ => st
  end.

(** Modelled from the spec: events are delivered serially, each after the
    callback of the one before has returned. *)
Definition deliver_all (handler : class) (haddr : N) (driver_ref : value)
    (events : list inbound) (st : dispatcher) : dispatcher :=
  fold_left (fun st ev => deliver handler haddr driver_ref ev st) events st.

(** The invariant of delivery: a fired [error] found the driver aborted,
    a running driver has fired no [error], and no callback fired after an
    [error]. *)
Definition error_last (st : dispatcher) : Prop :=
  (forall e, In e (disp_log st) -> fired_name e = "error" -> fired_in e = Aborted)
  /\ (d_lifecycle (disp_driver st) = Running ->
      forall e, In e (disp_log st) -> fired_name e <> "error")
  /\ (forall e, In e (removelast (disp_log st)) -> fired_name e <> "error").

(** ** Basic facts *)

Lemma base_is_root (c b : class) : base c = Some b -> base b = None.
Proof. destruct c; simpl; intros H; inversion H; reflexivity. Qed.

Example py_str_int : py_str (SInt (-42)) = "-42".
Proof. reflexivity. Qed.

Example py_str_obj :
  py_str (SObj Scheduler 255) = "<pymesos.interface.Scheduler object at 0xff>".
Proof. reflexivity. Qed.

Example percent_one : percent "a %s b" [SStr "x"] = Ok "a x b".
Proof. reflexivity. Qed.

Example percent_none : percent "a %s b" [] = Err TypeError.
Proof. reflexivity. Qed.

Example percent_two : percent "a %s b" [SStr "x"; SStr "y"] = Err TypeError.
Proof. reflexivity. Qed.

Example operational_calls_listed :
  operational_calls =
    ["requestResources"; "launchTasks"; "killTask"; "acceptOffers";
     "acceptInverseOffers"; "declineOffer"; "declineInverseOffer"; "reviveOffers";
     "suppressOffers"; "acknowledgeStatusUpdate"; "acknowledgeOperationStatusUpdate";
     "sendFrameworkMessage"; "reconcileTasks"].
Proof. reflexivity. Qed.


(** ** Binding arguments *)

Lemma bind_defaults_Some (optional : list (string * value)) (args : list value) :
  length args <= length optional -> exists e, bind_defaults optional args = Some e.
Proof.
  revert args.
  induction optional as [|[p d] optional IH]; intros [|a args] Hlen; simpl in *.
  - eauto.
  - lia.
  - destruct (IH []) as [e He]; [simpl; lia|]. rewrite He. simpl. eauto.
  - destruct (IH args) as [e He]; [lia|]. rewrite He. simpl. eauto.
Qed.

Lemma bind_defaults_None (optional : list (string * value)) (args : list value) :
  length optional < length args -> bind_defaults optional args = None.
Proof.
  revert args.
  induction optional as [|[p d] optional IH]; intros [|a args] Hlen; simpl in *;
    try lia; try reflexivity.
  rewrite IH by lia. reflexivity.
Qed.

Lemma bind_params_Some (required : list string) (optional : list (string * value))
    (args : list value) :
  length required <= length args <= length required + length optional ->
  exists e, bind_params required optional args = Some e.
Proof.
  revert args.
  induction required as [|p required IH]; intros args Hlen; simpl in *.
  - apply bind_defaults_Some. lia.
  - destruct args as [|a args]; simpl in *; [lia|].
    destruct (IH args) as [e He]; [lia|]. rewrite He. simpl. eauto.
Qed.

Lemma bind_params_None (required : list string) (optional : list (string * value))
    (args : list value) :
  length args < length required \/ length required + length optional < length args ->
  bind_params required optional args = None.
Proof.
  revert args.
  induction required as [|p required IH]; intros args Hlen; simpl in *.
  - apply bind_defaults_None. lia.
  - destruct args as [|a args]; simpl in *; [reflexivity|].
    rewrite IH by lia. reflexivity.
Qed.

Lemma accepts_binds (f : function) (args : list value) :
  accepts f (length args) = true ->
  exists e, bind_params (fn_params f) (fn_defaults f) args = Some e.
Proof.
  unfold accepts. intros H.
  apply andb_prop in H as [H1 H2].
  apply Nat.leb_le in H1. apply Nat.leb_le in H2.
  apply bind_params_Some. lia.
Qed.

Lemma rejects_fails (f : function) (args : list value) :
  accepts f (length args) = false ->
  bind_params (fn_params f) (fn_defaults f) args = None.
Proof.
  unfold accepts. intros H.
  apply andb_false_iff in H as [H | H]; apply Nat.leb_gt in H;
    apply bind_params_None; lia.
Qed.

(** ** Attribute lookup *)

Lemma find_method_In (name : string) (fs : list function) (f : function) :
  find_method name fs = Some f -> In f fs /\ fn_name f = name.
Proof.
  induction fs as [|g fs IH]; simpl; [discriminate|].
  destruct (String.eqb name (fn_name g)) eqn:E.
  - intros H. inversion H; subst. apply String.eqb_eq in E. auto.
  - intros H. destruct (IH H). auto.
Qed.

Lemma resolve_origin (c : class) (name : string) (f : function) :
  resolve c name = Some f ->
  find_method name (methods c) = Some f
  \/ exists b, base c = Some b /\ find_method name (methods b) = Some f.
Proof.
  unfold resolve, mro.
  destruct (base c) as [b|] eqn:Hb; simpl;
    destruct (find_method name (methods c)) as [g|]; auto.
  destruct (find_method name (methods b)) as [g|] eqn:Hg; [|discriminate].
  intros H. right. exists b. split; [reflexivity|congruence].
Qed.

(** No class body defines a name twice, so the first [def] found is the
    one the class keeps. *)
Lemma methods_names_distinct (c : class) : NoDup (map fn_name (methods c)).
Proof. destruct c; apply (bool_decide_unpack _); vm_compute; reflexivity. Qed.

(** Every [def] of the module has a docstring-only body, the two [error]
    callbacks apart. *)
Lemma methods_bodies (c : class) (f : function) :
  In f (methods c) ->
  fn_body f = [Docstring]
  \/ (c = Scheduler /\ f = Scheduler_error)
  \/ (c = Executor /\ f = Executor_error).
Proof.
  destruct c; simpl; intros H;
    repeat (destruct H as [<- | H]; [auto|]); contradiction.
Qed.

Lemma resolve_body (c : class) (name : string) (f : function) :
  resolve c name = Some f ->
  is_error_handler c name = false ->
  fn_body f = [Docstring].
Proof.
  intros Hres Hnot.
  destruct (resolve_origin _ _ _ Hres) as [Hown | (b & Hb & Hinh)].
  - destruct (find_method_In _ _ _ Hown) as [Hin Hname].
    destruct (methods_bodies _ _ Hin) as [Hdoc | [[-> ->] | [-> ->]]]; auto;
      simpl in Hname; subst name; simpl in Hnot; discriminate.
  - destruct (find_method_In _ _ _ Hinh) as [Hin Hname].
    destruct (methods_bodies _ _ Hin) as [Hdoc | [[-> ->] | [-> ->]]]; auto;
      destruct c; simpl in Hb; discriminate.
Qed.

(** ** Calls *)

Lemma call_docstring (c : class) (addr : N) (name : string) (f : function)
    (args : list value) (w : world) :
  resolve c name = Some f ->
  fn_body f = [Docstring] ->
  accepts f (length args) = true ->
  call c addr name args w = Returned VNone w.
Proof.
  intros Hres Hbody Hacc. unfold call. rewrite Hres.
  destruct (accepts_binds _ _ Hacc) as [e He]. rewrite He, Hbody. reflexivity.
Qed.

Lemma call_arity (c : class) (addr : N) (name : string) (f : function)
    (args : list value) (w : world) :
  resolve c name = Some f ->
  accepts f (length args) = false ->
  call c addr name args w = Raised TypeError w.
Proof.
  intros Hres Hacc. unfold call. rewrite Hres, (rejects_fails _ _ Hacc). reflexivity.
Qed.

Lemma call_missing (c : class) (addr : N) (name : string) (args : list value) (w : world) :
  resolve c name = None ->
  call c addr name args w
  = if is_reserved name then Beyond else Raised AttributeError w.
Proof. intros Hres. unfold call. rewrite Hres. reflexivity. Qed.

(** A placeholder either returns [None] or raises before its body runs; in
    both cases the world it leaves is the world it found. *)
Lemma call_placeholder_frame (c : class) (addr : N) (name : string)
    (args : list value) (w : world) :
  is_error_handler c name = false ->
  is_reserved name = false ->
  final_world (call c addr name args w) = Some w.
Proof.
  intros Hnot Hname.
  destruct (resolve c name) as [f|] eqn:Hres.
  - destruct (accepts f (length args)) eqn:Hacc.
    + rewrite (call_docstring _ _ _ _ _ _ Hres (resolve_body _ _ _ Hres Hnot) Hacc).
      reflexivity.
    + rewrite (call_arity _ _ _ _ _ _ Hres Hacc). reflexivity.
  - rewrite (call_missing _ _ _ _ _ Hres), Hname. reflexivity.
Qed.

(** ** Printing *)

Lemma append_cons (a : ascii) (s t : string) : String a s +:+ t = String a (s +:+ t).
Proof. reflexivity. Qed.

Lemma append_empty_r (s : string) : s +:+ "" = s.
Proof.
  induction s as [|a s IH]; [reflexivity|].
  rewrite append_cons, IH. reflexivity.
Qed.

Lemma append_assoc (s t u : string) : (s +:+ t) +:+ u = s +:+ (t +:+ u).
Proof.
  induction s as [|a s IH]; [reflexivity|].
  rewrite !append_cons, IH. reflexivity.
Qed.

(** The two format strings of the module applied to one argument. *)
Lemma percent_Scheduler_error (x : scalar) :
  percent "Error from Mesos: %s " [x] = Ok ("Error from Mesos: " +:+ py_str x +:+ " ").
Proof. reflexivity. Qed.

Lemma percent_Executor_error (x : scalar) :
  percent "Error from Mesos: %s" [x] = Ok ("Error from Mesos: " +:+ py_str x).
Proof.
  transitivity (Ok (A := string) ("Error from Mesos: " +:+ py_str x +:+ ""));
    [reflexivity|].
  rewrite append_empty_r. reflexivity.
Qed.

(** The [error] callbacks on a message that is not a tuple: the formatted
    line goes to [sys.stderr], nothing else changes, [None] is returned. *)
Lemma Scheduler_error_prints (addr : N) (driver : value) (message : scalar) (w : world) :
  call Scheduler addr "error" [driver; VScalar message] w
  = Returned VNone
      (write_stderr ("Error from Mesos: " +:+ py_str message +:+ " " +:+ newline) w).
Proof.
  transitivity
    (Returned VNone
       (write_stderr (("Error from Mesos: " +:+ py_str message +:+ " ") +:+ newline) w)).
  - unfold call. cbn [resolve mro base lookup_mro methods Scheduler_methods].
    reflexivity.
  - rewrite !append_assoc. reflexivity.
Qed.

Lemma Executor_error_prints (addr : N) (driver : value) (message : scalar) (w : world) :
  call Executor addr "error" [driver; VScalar message] w
  = Returned VNone
      (write_stderr ("Error from Mesos: " +:+ py_str message +:+ newline) w).
Proof.
  transitivity
    (Returned VNone
       (write_stderr (("Error from Mesos: " +:+ py_str message +:+ "") +:+ newline) w)).
  - reflexivity.
  - rewrite append_empty_r, append_assoc. reflexivity.
Qed.

(** A tuple message is taken as the argument tuple of [%]: unless it has
    exactly one item the formatting raises and nothing is printed. *)
Lemma Scheduler_error_tuple (addr : N) (driver : value) (w : world) :
  call Scheduler addr "error" [driver; VTuple []] w = Raised TypeError w
  /\ call Scheduler addr "error" [driver; VTuple [SStr "a"; SStr "b"]] w
     = Raised TypeError w.
Proof. split; reflexivity. Qed.

(** ** The defaults (C1) *)

(** C1, amended.  Every method the module defines for a class, other than
    [Scheduler.error] and [Executor.error], has a docstring-only body:
    called with a number of positional arguments its signature takes it
    returns [None] and leaves the output streams and every instance as
    they were.  The only bodies that are not docstring-only are those of
    the two [error] callbacks, which, given a driver and a message that is
    not a tuple, write the formatted message and a newline to [sys.stderr]
    and return [None]. *)
Theorem C1_every_method_is_a_default :
  (forall c addr name f args w,
      resolve c name = Some f ->
      is_error_handler c name = false ->
      accepts f (length args) = true ->
      fn_body f = [Docstring] /\ call c addr name args w = Returned VNone w)
  /\ (forall c f,
        In f (methods c) ->
        fn_body f <> [Docstring] ->
        is_error_handler c (fn_name f) = true)
  /\ (forall addr driver message w,
        call Scheduler addr "error" [driver; VScalar message] w
        = Returned VNone
            (write_stderr ("Error from Mesos: " +:+ py_str message +:+ " " +:+ newline) w))
  /\ (forall addr driver message w,
        call Executor addr "error" [driver; VScalar message] w
        = Returned VNone
            (write_stderr ("Error from Mesos: " +:+ py_str message +:+ newline) w)).
Proof.
  split; [|split; [|split]].
  - intros c addr name f args w Hres Hnot Hacc.
    pose proof (resolve_body _ _ _ Hres Hnot) as Hbody.
    split; [exact Hbody|]. eapply call_docstring; eassumption.
  - intros c f Hin Hbody.
    destruct (methods_bodies _ _ Hin) as [Hdoc | [[-> ->] | [-> ->]]];
      [contradiction | reflexivity | reflexivity].
  - apply Scheduler_error_prints.
  - apply Executor_error_prints.
Qed.

(** C1, as stated, fails: not any arguments will do.  [killTask()] without
    its task id raises [TypeError], and so does [Scheduler.error] on a
    message that is a tuple of two items, which [%] takes for two
    arguments; neither returns [None], and the second prints nothing. *)
Lemma C1_counterexample :
  call SchedulerDriver 1 "killTask" [] w_init = Raised TypeError w_init
  /\ call Scheduler 1 "error"
       [VScalar (SObj SchedulerDriver 2); VTuple [SStr "a"; SStr "b"]] w_init
     = Raised TypeError w_init.
Proof. split; reflexivity. Qed.

(** C1, amended, at [SchedulerDriver.launchTasks]. *)
Lemma C1_witness :
  resolve SchedulerDriver "launchTasks"
    = Some (doc_opt "launchTasks" ["offerIds"; "tasks"] [("filters", VNone)])
  /\ call SchedulerDriver 7 "launchTasks" [VTuple [SStr "O1"]; VTuple [SStr "T1"]] w_pending
     = Returned VNone w_pending.
Proof.
  split; [reflexivity|].
  refine (proj2 (proj1 C1_every_method_is_a_default SchedulerDriver 7%N "launchTasks"
                   (doc_opt "launchTasks" ["offerIds"; "tasks"] [("filters", VNone)])
                   [VTuple [SStr "O1"]; VTuple [SStr "T1"]] w_pending _ _ _));
    reflexivity.
Defined.

(** ** The lifecycle operations (C2, C3) *)

(** C2, as stated, fails: [OperatorAgentDriver] is one of the driver
    variants, yet neither it nor its base defines [start], so the call
    raises [AttributeError]; and where [start] exists it changes no state,
    so that a second [start()] on the same driver returns [None] like the
    first. *)
Lemma C2_counterexample :
  In OperatorAgentDriver driver_variants
  /\ provides OperatorAgentDriver "start" = false
  /\ call OperatorAgentDriver 1 "start" [] w_init = Raised AttributeError w_init
  /\ start_twice w_init = Returned VNone (alloc 1 w_init).
Proof.
  split; [simpl; auto|].
  split; [reflexivity|].
  split; [reflexivity|].
  vm_compute. reflexivity.
Qed.

(** C2, amended.  [SchedulerDriver], [ExecutorDriver] and
    [OperatorMasterDriver] each define [start], [stop], [abort] and [join]
    in their own body, and each of the four, called without argument,
    returns [None] and leaves every state as it was; [OperatorAgentDriver]
    provides none of the four, and calling one on it raises
    [AttributeError]. *)
Theorem C2_lifecycle_placeholders :
  (forall c name,
      In c lifecycle_classes ->
      In name lifecycle_ops ->
      defines c name = true
      /\ forall addr w, call c addr name [] w = Returned VNone w)
  /\ (forall name,
        In name lifecycle_ops ->
        provides OperatorAgentDriver name = false
        /\ forall addr args w,
             call OperatorAgentDriver addr name args w = Raised AttributeError w).
Proof.
  split.
  - intros c name Hc Hname.
    simpl in Hc, Hname.
    destruct Hc as [<- | [<- | [<- | []]]];
      destruct Hname as [<- | [<- | [<- | [<- | []]]]];
      (split; [reflexivity | intros addr w; reflexivity]).
  - intros name Hname. simpl in Hname.
    destruct Hname as [<- | [<- | [<- | [<- | []]]]];
      (split; [reflexivity | intros addr args w; reflexivity]).
Qed.

(** C2, amended, at [OperatorMasterDriver.join] and at [abort] on an
    [OperatorAgentDriver]. *)
Lemma C2_witness :
  call OperatorMasterDriver 3 "join" [] w_pending = Returned VNone w_pending
  /\ call OperatorAgentDriver 3 "abort" [] w_pending = Raised AttributeError w_pending.
Proof.
  split.
  - refine (proj2 (proj1 C2_lifecycle_placeholders OperatorMasterDriver "join" _ _)
              3%N w_pending); simpl; auto.
  - refine (proj2 (proj2 C2_lifecycle_placeholders "abort" _) 3%N [] w_pending);
      simpl; auto.
Defined.

(** C3.  For each class that defines [run] (these are [SchedulerDriver],
    [ExecutorDriver] and [OperatorMasterDriver]), [run()] on any state
    gives the result and the state that [start()] followed by [join()]
    gives. *)
Theorem C3_run_is_start_then_join (c : class) (addr : N) (w : world) :
  defines c "run" = true ->
  In c lifecycle_classes
  /\ call c addr "run" [] w = start_then_join c addr w.
Proof.
  destruct c; simpl; intros H; try discriminate;
    (split; [simpl; auto | reflexivity]).
Qed.

(** C3 at [ExecutorDriver]. *)
Lemma C3_witness :
  defines ExecutorDriver "run" = true
  /\ call ExecutorDriver 4 "run" [] w_pending = start_then_join ExecutorDriver 4 w_pending.
Proof.
  split; [reflexivity|].
  apply (C3_run_is_start_then_join ExecutorDriver 4%N w_pending). reflexivity.
Defined.

(** ** Calls after [abort] (C4) *)

Lemma abort_returns (addr : N) (w : world) :
  call SchedulerDriver addr "abort" [] w = Returned VNone w.
Proof. reflexivity. Qed.

(** C4, as stated, fails: a driver is built, started and aborted, and the
    [launchTasks] call that follows does not raise or report anything; it
    returns [None], and the state holds the new driver and nothing else. *)
Lemma C4_counterexample :
  launch_after_abort w_init = Returned VNone (alloc 1 w_init).
Proof. vm_compute. reflexivity. Qed.

(** C4, amended.  After [abort()], every operational method of
    [SchedulerDriver], called with arguments its signature takes, returns
    [None] without raising and leaves every state as it was: [abort] and the
    operational methods are docstring-only, and the module holds no queue a
    call could reach. *)
Theorem C4_calls_after_abort (addr : N) (name : string) (f : function)
    (args : list value) (w : world) :
  In name operational_calls ->
  resolve SchedulerDriver name = Some f ->
  accepts f (length args) = true ->
  call SchedulerDriver addr "abort" [] w = Returned VNone w
  /\ (call SchedulerDriver addr "abort" [] ;;; call SchedulerDriver addr name args) w
     = Returned VNone w.
Proof.
  intros _ Hres Hacc.
  split; [apply abort_returns|].
  unfold bind. rewrite abort_returns.
  eapply call_docstring; [exact Hres | | exact Hacc].
  apply (resolve_body SchedulerDriver name f Hres). reflexivity.
Qed.

(** C4, amended, at [killTask]. *)
Lemma C4_witness :
  In "killTask" operational_calls
  /\ (call SchedulerDriver 1 "abort" [] ;;;
      call SchedulerDriver 1 "killTask" [VScalar (SStr "T1")]) w_pending
     = Returned VNone w_pending.
Proof.
  split; [vm_compute; auto 10|].
  refine (proj2 (C4_calls_after_abort 1%N "killTask" (doc "killTask" ["taskId"])
                   [VScalar (SStr "T1")] w_pending _ _ _));
    [vm_compute; auto 10 | reflexivity | reflexivity].
Defined.

(** ** Launching nothing and declining (C5) *)

Lemma decline_each_returns (addr : N) (offerIds : list scalar) (filters : option value)
    (w : world) :
  decline_each addr offerIds filters w = Returned VNone w.
Proof.
  induction offerIds as [|offerId rest IH]; [reflexivity|].
  cbn [decline_each]. unfold bind.
  replace (call SchedulerDriver addr "declineOffer" (VScalar offerId :: opt_arg filters) w)
    with (Returned VNone w) by (destruct filters; reflexivity).
  exact IH.
Qed.

(** C5.  For every list of offer ids (and filters passed or not),
    [launchTasks] with an empty task collection gives the result and the
    state that calling [declineOffer] on each of the ids in turn gives. *)
Theorem C5_launch_nothing_declines (addr : N) (offerIds : list scalar)
    (filters : option value) (w : world) :
  launch_nothing addr offerIds filters w = decline_each addr offerIds filters w.
Proof.
  rewrite decline_each_returns.
  unfold launch_nothing. destruct filters; reflexivity.
Qed.

(** ** Acknowledgements (C6) *)

Lemma acknowledge_returns (addr : N) (status : value) (w : world) :
  call SchedulerDriver addr "acknowledgeStatusUpdate" [status] w = Returned VNone w.
Proof. reflexivity. Qed.

(** C6, as stated, fails: the class takes no constructor argument that
    could ask for explicit acknowledgements, and on a driver built without
    asking for them [acknowledgeStatusUpdate] returns [None]; the driver is
    as it was built and nothing was raised or printed. *)
Lemma C6_counterexample :
  construct SchedulerDriver [VScalar (SBool true)] w_init = Raised TypeError w_init
  /\ acknowledge_on_default_driver w_init = Returned VNone (alloc 1 w_init).
Proof. split; [reflexivity | vm_compute; reflexivity]. Qed.

(** C6, amended.  [SchedulerDriver] has no constructor of its own (passing
    any argument to it raises [TypeError]) and records no acknowledgement
    mode; [acknowledgeStatusUpdate], on any driver in any state and for any
    status, returns [None] and leaves every state as it was. *)
Theorem C6_acknowledge_is_a_placeholder (addr : N) (status mode : value)
    (more : list value) (w : world) :
  construct SchedulerDriver (mode :: more) w = Raised TypeError w
  /\ call SchedulerDriver addr "acknowledgeStatusUpdate" [status] w = Returned VNone w
  /\ (d <- construct SchedulerDriver [] ;; invoke d "acknowledgeStatusUpdate" [status]) w
     = Returned VNone (alloc (fresh ({[0%N]} ∪ dom (heap w))) w).
Proof. repeat split. Qed.

(** ** The ledger of the driver (C7) *)







(** ** The [error] callback and the lifecycle (C8) *)

Lemma initial_error_last (d : driver) (w : world) : error_last (initial d w).
Proof. repeat split; cbn; intros; contradiction. Qed.

Lemma deliver_error_last (handler : class) (haddr : N) (driver_ref : value)
    (ev : inbound) (st : dispatcher) :
  error_last st -> error_last (deliver handler haddr driver_ref ev st).
Proof.
  intros (Hab & Hrun & Hlast). unfold deliver.
  destruct (d_lifecycle (disp_driver st)) eqn:Hlife;
    try (repeat split; [exact Hab | rewrite Hlife; discriminate | exact Hlast]).
  specialize (Hrun eq_refl).
  destruct (String.eqb (ev_name ev) "error") eqn:E.
  - repeat split; cbn [disp_log disp_driver with_lifecycle d_lifecycle].
    + intros e Hin Hname. apply in_app_iff in Hin as [Hin | [<- | []]].
      * exfalso. exact (Hrun e Hin Hname).
      * reflexivity.
    + discriminate.
    + rewrite removelast_last. exact Hrun.
  - apply String.eqb_neq in E.
    repeat split; cbn [disp_log disp_driver].
    + intros e Hin Hname. apply in_app_iff in Hin as [Hin | [<- | []]].
      * exfalso. exact (Hrun e Hin Hname).
      * contradiction.
    + intros _ e Hin. apply in_app_iff in Hin as [Hin | [<- | []]].
      * exact (Hrun e Hin).
      * exact E.
    + rewrite removelast_last. exact Hrun.
Qed.

Lemma deliver_all_error_last (handler : class) (haddr : N) (driver_ref : value)
    (events : list inbound) (st : dispatcher) :
  error_last st -> error_last (deliver_all handler haddr driver_ref events st).
Proof.
  revert st. induction events as [|ev events IH]; intros st Hst; [exact Hst|].
  apply IH. apply deliver_error_last. exact Hst.
Qed.

(** C8.  Whatever events a driver delivers, to a scheduler or to an
    executor, and whatever state it starts in, every [error] callback that
    fired found the driver in the Aborted state, hence none fired while it
    was Running, and no callback fired after it.  The callback does fire:
    on a fatal error a running driver is aborted, and then [Scheduler.error]
    or [Executor.error] prints its line. *)
Theorem C8_error_fires_only_when_aborted (handler : class) (haddr : N)
    (driver_ref : value) (events : list inbound) (d : driver) (w : world)
    (message : scalar) :
  (forall e,
      In e (disp_log (deliver_all handler haddr driver_ref events (initial d w))) ->
      fired_name e = "error" ->
      fired_in e = Aborted /\ fired_in e <> Running)
  /\ (forall e,
        In e (removelast (disp_log (deliver_all handler haddr driver_ref events (initial d w)))) ->
        fired_name e <> "error")
  /\ (d_lifecycle d = Running ->
      deliver Scheduler haddr driver_ref
        {| ev_name := "error"; ev_args := [VScalar message] |} (initial d w)
      = {| disp_driver := with_lifecycle Aborted d;
           disp_world := write_stderr (Scheduler_line message) w;
           disp_log := [{| fired_name := "error"; fired_in := Aborted |}] |}
      /\ deliver Executor haddr driver_ref
           {| ev_name := "error"; ev_args := [VScalar message] |} (initial d w)
         = {| disp_driver := with_lifecycle Aborted d;
              disp_world := write_stderr (Executor_line message) w;
              disp_log := [{| fired_name := "error"; fired_in := Aborted |}] |}).
Proof.
  destruct (deliver_all_error_last handler haddr driver_ref events _
              (initial_error_last d w)) as (Hab & _ & Hlast).
  split; [|split].
  - intros e Hin Hname. rewrite (Hab e Hin Hname). split; [reflexivity|discriminate].
  - exact Hlast.
  - intros Hrun. unfold deliver. cbn [initial disp_driver disp_world disp_log].
    rewrite Hrun. cbn [String.eqb Ascii.eqb Bool.eqb ev_name ev_args app].
    rewrite Scheduler_error_prints, Executor_error_prints. split; reflexivity.
Qed.

(** C8 at a running driver that delivers an offer, a fatal error and a
    status update to a scheduler. *)
Lemma C8_witness :
  disp_log
    (deliver_all Scheduler 2 (VScalar (SObj SchedulerDriver 1))
       [ {| ev_name := "resourceOffers"; ev_args := [VTuple [SStr "O1"]] |};
         {| ev_name := "error"; ev_args := [VScalar (SStr "boom")] |};
         {| ev_name := "statusUpdate"; ev_args := [VScalar (SStr "T1")] |} ]
       (initial {| d_lifecycle := Running; d_mode := Implicit; d_ledger := [] |} w_init))
  = [ {| fired_name := "resourceOffers"; fired_in := Running |};
      {| fired_name := "error"; fired_in := Aborted |} ]
  /\ fired_in {| fired_name := "error"; fired_in := Aborted |} = Aborted.
Proof.
  split; [reflexivity|].
  refine (proj1 (proj1 (C8_error_fires_only_when_aborted Scheduler 2%N
                          (VScalar (SObj SchedulerDriver 1))
                          [ {| ev_name := "resourceOffers"; ev_args := [VTuple [SStr "O1"]] |};
                            {| ev_name := "error"; ev_args := [VScalar (SStr "boom")] |};
                            {| ev_name := "statusUpdate"; ev_args := [VScalar (SStr "T1")] |} ]
                          {| d_lifecycle := Running; d_mode := Implicit; d_ledger := [] |}
                          w_init SNone)
                   {| fired_name := "error"; fired_in := Aborted |} _ eq_refl)).
  right. left. reflexivity.
Defined.

(** ** Marking an agent gone twice (C9) *)

(** C9.  For every driver, agent id and state, [markAgentGone] called
    twice with the same agent id gives the result and the state that
    calling it once gives. *)
Theorem C9_markAgentGone_idempotent (addr : N) (agent_id : value) (w : world) :
  (call OperatorMasterDriver addr "markAgentGone" [agent_id] ;;;
   call OperatorMasterDriver addr "markAgentGone" [agent_id]) w
  = call OperatorMasterDriver addr "markAgentGone" [agent_id] w.
Proof. reflexivity. Qed.

(** ** The export list (C10) *)

(** C10.  [__all__] has exactly six entries; one of them is the joined
    string OperatorMasterDriverOperatorMaster; neither OperatorMasterDriver
    nor OperatorMaster is an entry, although both name classes of the
    module. *)
Theorem C10_all_joins_two_names :
  length __all__ = 6
  /\ In "OperatorMasterDriverOperatorMaster" __all__
  /\ ~ In "OperatorMasterDriver" __all__
  /\ ~ In "OperatorMaster" __all__
  /\ In "OperatorMasterDriver" (map class_name classes)
  /\ In "OperatorMaster" (map class_name classes).
Proof.
  split; [reflexivity|].
  split; [vm_compute; auto 10|].
  split; [|split; [|split]].
  - vm_compute. intros H.
    repeat (destruct H as [H | H]; [discriminate H|]). exact H.
  - vm_compute. intros H.
    repeat (destruct H as [H | H]; [discriminate H|]). exact H.
  - vm_compute. auto 10.
  - vm_compute. auto 10.
Qed.

(** ** What a call of a placeholder can do *)

(** A method other than the two [error] callbacks, under a name that is
    not one of the interpreter's reserved names, has exactly three
    outcomes, decided before any body runs: [AttributeError] when the class
    does not provide the name, [TypeError] when the number of positional
    arguments does not fit the signature, [None] otherwise; in all three
    the state is left as it was. *)
Theorem placeholder_outcomes (c : class) (addr : N) (name : string)
    (args : list value) (w : world) :
  is_error_handler c name = false ->
  is_reserved name = false ->
  call c addr name args w
  = match resolve c name with
    | None => Raised AttributeError w
    | Some f =>
        if accepts f (length args) then Returned VNone w else Raised TypeError w
    end.
Proof.
  intros Hnot Hname.
  destruct (resolve c name) as [f|] eqn:Hres.
  - destruct (accepts f (length args)) eqn:Hacc.
    + eapply call_docstring; [exact Hres | | exact Hacc].
      exact (resolve_body _ _ _ Hres Hnot).
    + eapply call_arity; eassumption.
  - rewrite (call_missing _ _ _ _ _ Hres), Hname. reflexivity.
Qed.

(** At [killTask] with a task id too many, and at a name no class defines. *)
Lemma placeholder_outcomes_witness :
  call SchedulerDriver 1 "killTask" [VScalar (SStr "T1"); VScalar (SStr "T2")] w_pending
  = Raised TypeError w_pending
  /\ call ExecutorDriver 1 "killTask" [VScalar (SStr "T1")] w_pending
     = Raised AttributeError w_pending.
Proof.
  split.
  - exact (placeholder_outcomes SchedulerDriver 1%N "killTask"
             [VScalar (SStr "T1"); VScalar (SStr "T2")] w_pending eq_refl eq_refl).
  - exact (placeholder_outcomes ExecutorDriver 1%N "killTask"
             [VScalar (SStr "T1")] w_pending eq_refl eq_refl).
Defined.

(** ** The [error] callbacks on every argument list *)

Lemma Scheduler_error_cases (addr : N) (args : list value) (w : world) :
  call Scheduler addr "error" args w
  = match args with
    | [driver; message] =>
        match format_args message with
        | [x] => Returned VNone (write_stderr (Scheduler_line x) w)
        | _ => Raised TypeError w
        end
    | _ => Raised TypeError w
    end.
Proof.
  destruct args as [|driver [|message [|extra more]]]; try reflexivity.
  destruct message as [x | [|x [|y items]]]; try reflexivity.
  - apply Scheduler_error_prints.
  - change (call Scheduler addr "error" [driver; VTuple [x]] w)
      with (call Scheduler addr "error" [driver; VScalar x] w).
    apply Scheduler_error_prints.
Qed.

(** [Scheduler.error] takes exactly a driver and a message.  A message that
    is not a tuple, or a tuple of one item, is printed after the prefix and
    followed by a space and a newline; a tuple of any other length makes the
    formatting raise [TypeError] with nothing printed; so does any other
    number of arguments. *)
Theorem Scheduler_error_outcomes (addr : N) (args : list value) (w : world) :
  call Scheduler addr "error" args w
  = match args with
    | [driver; message] =>
        match format_args message with
        | [x] => Returned VNone (write_stderr (Scheduler_line x) w)
        | _ => Raised TypeError w
        end
    | _ => Raised TypeError w
    end.
Proof. apply Scheduler_error_cases. Qed.

Lemma Executor_error_cases (addr : N) (args : list value) (w : world) :
  call Executor addr "error" args w
  = match args with
    | [driver; message] =>
        match format_args message with
        | [x] => Returned VNone (write_stderr (Executor_line x) w)
        | _ => Raised TypeError w
        end
    | _ => Raised TypeError w
    end.
Proof.
  destruct args as [|driver [|message [|extra more]]]; try reflexivity.
  destruct message as [x | [|x [|y items]]]; try reflexivity.
  - apply Executor_error_prints.
  - change (call Executor addr "error" [driver; VTuple [x]] w)
      with (call Executor addr "error" [driver; VScalar x] w).
    apply Executor_error_prints.
Qed.

(** [Executor.error] behaves alike, its line having no space before the
    newline. *)
Theorem Executor_error_outcomes (addr : N) (args : list value) (w : world) :
  call Executor addr "error" args w
  = match args with
    | [driver; message] =>
        match format_args message with
        | [x] => Returned VNone (write_stderr (Executor_line x) w)
        | _ => Raised TypeError w
        end
    | _ => Raised TypeError w
    end.
Proof. apply Executor_error_cases. Qed.

(** ** Sequences of calls *)

Lemma write_stderr_empty (w : world) : write_stderr "" w = w.
Proof.
  destruct w as [out err h]. unfold write_stderr. simpl.
  rewrite append_empty_r. reflexivity.
Qed.

Lemma write_stderr_twice (a b : string) (w : world) :
  write_stderr b (write_stderr a w) = write_stderr (a +:+ b) w.
Proof. unfold write_stderr. simpl. rewrite append_assoc. reflexivity. Qed.

Lemma report_each_Scheduler (addr : N) (driver : value) (messages : list scalar) (w : world) :
  report_each Scheduler addr driver messages w
  = Returned VNone (write_stderr (concat_lines (map Scheduler_line messages)) w).
Proof.
  revert w. induction messages as [|message rest IH]; intros w.
  - cbn [report_each map concat_lines fold_right]. unfold ret.
    rewrite write_stderr_empty. reflexivity.
  - cbn [report_each]. unfold bind.
    rewrite Scheduler_error_cases. cbn [format_args].
    rewrite IH, write_stderr_twice. reflexivity.
Qed.

Lemma report_each_Executor (addr : N) (driver : value) (messages : list scalar) (w : world) :
  report_each Executor addr driver messages w
  = Returned VNone (write_stderr (concat_lines (map Executor_line messages)) w).
Proof.
  revert w. induction messages as [|message rest IH]; intros w.
  - cbn [report_each map concat_lines fold_right]. unfold ret.
    rewrite write_stderr_empty. reflexivity.
  - cbn [report_each]. unfold bind.
    rewrite Executor_error_cases. cbn [format_args].
    rewrite IH, write_stderr_twice. reflexivity.
Qed.

(** Reporting several messages in turn, none of them a tuple, never fails:
    it returns [None] and appends to [sys.stderr] one line per message, in
    the order of the messages, after whatever was there. *)
Theorem report_each_prints_in_order (addr : N) (driver : value)
    (messages : list scalar) (w : world) :
  report_each Scheduler addr driver messages w
  = Returned VNone (write_stderr (concat_lines (map Scheduler_line messages)) w)
  /\ report_each Executor addr driver messages w
     = Returned VNone (write_stderr (concat_lines (map Executor_line messages)) w).
Proof. split; [apply report_each_Scheduler | apply report_each_Executor]. Qed.

Lemma call_extends_stderr (c : class) (addr : N) (name : string)
    (args : list value) (w : world) :
  is_reserved name = false ->
  exists text, final_world (call c addr name args w) = Some (write_stderr text w).
Proof.
  intros Hname.
  destruct (is_error_handler c name) eqn:Herr.
  - assert (name = "error") as ->
      by (destruct c; simpl in Herr; try discriminate; apply String.eqb_eq; exact Herr).
    destruct c; simpl in Herr; try discriminate.
    + rewrite Scheduler_error_cases.
      destruct args as [|driver [|message [|extra more]]];
        try (exists ""; rewrite write_stderr_empty; reflexivity).
      destruct (format_args message) as [|x [|y items]];
        try (exists ""; rewrite write_stderr_empty; reflexivity).
      exists (Scheduler_line x). reflexivity.
    + rewrite Executor_error_cases.
      destruct args as [|driver [|message [|extra more]]];
        try (exists ""; rewrite write_stderr_empty; reflexivity).
      destruct (format_args message) as [|x [|y items]];
        try (exists ""; rewrite write_stderr_empty; reflexivity).
      exists (Executor_line x). reflexivity.
  - exists "". rewrite write_stderr_empty.
    apply call_placeholder_frame; assumption.
Qed.

Lemma run_calls_extends_stderr (calls : list invocation) (w : world) :
  forallb (fun i => negb (is_reserved (inv_name i))) calls = true ->
  exists text, final_world (run_calls calls w) = Some (write_stderr text w).
Proof.
  revert w. induction calls as [|i rest IH]; intros w Hall.
  - exists "". rewrite write_stderr_empty. reflexivity.
  - cbn [forallb] in Hall. apply andb_prop in Hall as [Hi Hrest].
    apply negb_true_iff in Hi.
    cbn [run_calls]. unfold bind.
    destruct (call_extends_stderr (inv_class i) (inv_addr i) (inv_name i) (inv_args i) w Hi)
      as [text Htext].
    destruct (call (inv_class i) (inv_addr i) (inv_name i) (inv_args i) w)
      as [v w' | e w' |]; simpl in Htext; [| |discriminate Htext];
      injection Htext as ->.
    + destruct (IH (write_stderr text w) Hrest) as [text' Htext'].
      exists (text +:+ text'). rewrite Htext', write_stderr_twice. reflexivity.
    + exists text. reflexivity.
Qed.

Lemma run_calls_placeholders (calls : list invocation) (w : world) :
  forallb (fun i => negb (is_reserved (inv_name i))) calls = true ->
  forallb (fun i => negb (is_error_call i)) calls = true ->
  final_world (run_calls calls w) = Some w.
Proof.
  induction calls as [|i rest IH]; intros Hnames Hall; [reflexivity|].
  cbn [forallb] in Hnames, Hall.
  apply andb_prop in Hnames as [Hname Hnames].
  apply andb_prop in Hall as [Hi Hrest].
  apply negb_true_iff in Hname. apply negb_true_iff in Hi. unfold is_error_call in Hi.
  cbn [run_calls]. unfold bind.
  pose proof (call_placeholder_frame (inv_class i) (inv_addr i) (inv_name i)
                (inv_args i) w Hi Hname) as Hframe.
  destruct (call (inv_class i) (inv_addr i) (inv_name i) (inv_args i) w)
    as [v w' | e w' |]; simpl in Hframe; [| |discriminate Hframe];
    injection Hframe as ->.
  - apply IH; assumption.
  - reflexivity.
Qed.

(** Whatever calls are made on the module's classes under names that are
    not reserved, with whatever arguments and however the sequence ends
    (at its end or at the first exception), it ends in a state in which
    nothing was written to [sys.stdout], no instance's attributes were
    touched, and [sys.stderr] was only appended to; when none of the calls
    is an [error] callback that state is the one the sequence began in. *)
Theorem run_calls_frame (calls : list invocation) (w : world) :
  forallb (fun i => negb (is_reserved (inv_name i))) calls = true ->
  exists w',
    final_world (run_calls calls w) = Some w'
    /\ stdout w' = stdout w
    /\ heap w' = heap w
    /\ (exists text, stderr w' = stderr w +:+ text)
    /\ (forallb (fun i => negb (is_error_call i)) calls = true -> w' = w).
Proof.
  intros Hnames.
  destruct (run_calls_extends_stderr calls w Hnames) as [text Htext].
  exists (write_stderr text w).
  split; [exact Htext|]. split; [reflexivity|]. split; [reflexivity|].
  split; [exists text; reflexivity|].
  intros Hall.
  pose proof (run_calls_placeholders calls w Hnames Hall) as Hsame.
  rewrite Htext in Hsame. injection Hsame as Hsame. exact Hsame.
Qed.

(** A start, a launch with an argument missing, and a stop never reached. *)
Lemma run_calls_frame_witness :
  exists w',
    final_world
      (run_calls
         [ {| inv_class := SchedulerDriver; inv_addr := 1; inv_name := "start";
              inv_args := [] |};
           {| inv_class := SchedulerDriver; inv_addr := 1; inv_name := "launchTasks";
              inv_args := [VTuple [SStr "O1"]] |};
           {| inv_class := SchedulerDriver; inv_addr := 1; inv_name := "stop";
              inv_args := [] |} ] w_pending) = Some w'
    /\ w' = w_pending.
Proof.
  destruct (run_calls_frame
              [ {| inv_class := SchedulerDriver; inv_addr := 1; inv_name := "start";
                   inv_args := [] |};
                {| inv_class := SchedulerDriver; inv_addr := 1; inv_name := "launchTasks";
                   inv_args := [VTuple [SStr "O1"]] |};
                {| inv_class := SchedulerDriver; inv_addr := 1; inv_name := "stop";
                   inv_args := [] |} ] w_pending eq_refl)
    as (w' & Hend & _ & _ & _ & Hsame).
  exists w'. split; [exact Hend|]. apply Hsame. reflexivity.
Defined.

(** ** Names along the resolution order *)

(** Along the resolution order of every class no method name is defined
    twice: no [def] replaces an earlier one of its class body, and neither
    subclass of [OperatorDaemonDriver] overrides a method of it. *)
Theorem no_def_is_shadowed (c : class) :
  NoDup (map fn_name (flat_map methods (mro c))).
Proof. destruct c; apply (bool_decide_unpack _); vm_compute; reflexivity. Qed.

Lemma find_method_absent (name : string) (fs : list function) :
  ~ In name (map fn_name fs) -> find_method name fs = None.
Proof.
  induction fs as [|g fs IH]; [reflexivity|].
  cbn [map In find_method]. intros Hnot.
  destruct (String.eqb name (fn_name g)) eqn:E.
  - apply String.eqb_eq in E. exfalso. apply Hnot. left. symmetry. exact E.
  - apply IH. intros Hin. apply Hnot. right. exact Hin.
Qed.

Lemma inherited_not_redefined (c b : class) (name : string) (f : function) :
  base c = Some b ->
  find_method name (methods b) = Some f ->
  find_method name (methods c) = None.
Proof.
  intros Hb Hf.
  destruct (find_method_In _ _ _ Hf) as [Hin Hname].
  apply find_method_absent. intros Hown.
  assert (NoDup (map fn_name (methods c) ++ map fn_name (methods b))) as Hnd.
  { destruct c; simpl in Hb; try discriminate Hb; inversion Hb; subst b;
      apply (bool_decide_unpack _); vm_compute; reflexivity. }
  apply NoDup_app in Hnd as (_ & Hdisj & _).
  apply (Hdisj name).
  - apply list_elem_of_In. exact Hown.
  - apply list_elem_of_In. rewrite <- Hname. apply in_map. exact Hin.
Qed.

(** A method that [OperatorDaemonDriver] defines is, on an
    [OperatorMasterDriver] or an [OperatorAgentDriver], that very [def]: the
    subclass resolves the name to it, and a call on the subclass has the
    outcome of the same call on the base, for every argument list and
    state. *)
Theorem inherited_method_is_the_base_def (c b : class) (addr : N) (name : string)
    (f : function) (args : list value) (w : world) :
  base c = Some b ->
  find_method name (methods b) = Some f ->
  resolve c name = Some f
  /\ call c addr name args w = call b addr name args w.
Proof.
  intros Hb Hf.
  assert (resolve c name = Some f) as Hc.
  { unfold resolve, mro. rewrite Hb. cbn [lookup_mro].
    rewrite (inherited_not_redefined _ _ _ _ Hb Hf), Hf. reflexivity. }
  assert (resolve b name = Some f) as Hbres.
  { unfold resolve, mro. rewrite (base_is_root _ _ Hb). cbn [lookup_mro].
    rewrite Hf. reflexivity. }
  assert (fn_body f = [Docstring]) as Hbody.
  { destruct (find_method_In _ _ _ Hf) as [Hin _].
    destruct (methods_bodies _ _ Hin) as [Hdoc | [[-> _] | [-> _]]]; auto;
      destruct c; simpl in Hb; discriminate Hb. }
  split; [exact Hc|].
  unfold call. rewrite Hc, Hbres, Hbody.
  destruct (bind_params (fn_params f) (fn_defaults f) args); reflexivity.
Qed.

(** At [readFile] on an [OperatorAgentDriver], one argument short. *)
Lemma inherited_method_witness :
  call OperatorAgentDriver 5 "readFile" [VScalar (SStr "/var/log"); VScalar (SInt 0)] w_pending
  = call OperatorDaemonDriver 5 "readFile" [VScalar (SStr "/var/log"); VScalar (SInt 0)] w_pending.
Proof.
  exact (proj2 (inherited_method_is_the_base_def OperatorAgentDriver OperatorDaemonDriver
                  5%N "readFile" (doc "readFile" ["path"; "offset"; "length"])
                  [VScalar (SStr "/var/log"); VScalar (SInt 0)] w_pending
                  eq_refl eq_refl)).
Defined.

(** ** Importing the export list *)

Lemma import_names_succeeds (names globals bound : list string) :
  forallb (fun name => negb (is_reserved name)) names = true ->
  snd (import_names names globals bound) = Bound_all
  <-> forall name, In name names -> In name globals.
Proof.
  revert bound. induction names as [|n names IH]; intros bound Hnames;
    cbn [import_names].
  - split; [intros _ name []|reflexivity].
  - cbn [forallb] in Hnames. apply andb_prop in Hnames as [Hn Hnames].
    apply negb_true_iff in Hn. rewrite Hn.
    destruct (existsb (String.eqb n) globals) eqn:E.
    + rewrite (IH _ Hnames). apply existsb_exists in E as (g & Hg & Heq).
      apply String.eqb_eq in Heq. subst g.
      split.
      * intros H name [<- | Hin]; auto.
      * intros H name Hin. apply H. right. exact Hin.
    + split; [discriminate|].
      intros H. exfalso.
      assert (existsb (String.eqb n) globals = true) as E'.
      { apply existsb_exists. exists n. split; [apply H; left; reflexivity|].
        apply String.eqb_refl. }
      congruence.
Qed.

Lemma import_names_bound (names globals bound : list string) :
  snd (import_names names globals bound) = Bound_all ->
  fst (import_names names globals bound) = bound ++ names.
Proof.
  revert bound. induction names as [|n names IH]; intros bound; cbn [import_names].
  - intros _. cbn [fst]. rewrite app_nil_r. reflexivity.
  - destruct (is_reserved n); [discriminate|].
    destruct (existsb (String.eqb n) globals); [|discriminate].
    intros H. rewrite (IH _ H), <- app_assoc. reflexivity.
Qed.

Lemma import_names_ends (names globals bound : list string) :
  forallb (fun name => negb (is_reserved name)) names = true ->
  snd (import_names names globals bound) = Bound_all
  \/ snd (import_names names globals bound) = Import_raises AttributeError.
Proof.
  revert bound. induction names as [|n names IH]; intros bound Hnames;
    cbn [import_names]; [left; reflexivity|].
  cbn [forallb] in Hnames. apply andb_prop in Hnames as [Hn Hnames].
  apply negb_true_iff in Hn. rewrite Hn.
  destruct (existsb (String.eqb n) globals); [apply IH; exact Hnames|].
  right. reflexivity.
Qed.

(** A star import of an export list without reserved names either binds
    every entry, in order, or raises [AttributeError]; it binds every entry
    exactly when the module body binds every entry.  For this module it
    does not: the import binds the first four names and raises
    [AttributeError] at the joined fifth entry, so that
    [OperatorAgentDriver], which follows it and is a class of the module,
    is never bound. *)
Theorem star_import_fails (names : list string) :
  forallb (fun name => negb (is_reserved name)) names = true ->
  (snd (import_names names module_globals []) = Bound_all
   <-> forall name, In name names -> In name module_globals)
  /\ (snd (import_names names module_globals []) = Bound_all ->
      fst (import_names names module_globals []) = names)
  /\ (snd (import_names names module_globals []) = Bound_all
      \/ snd (import_names names module_globals []) = Import_raises AttributeError)
  /\ forallb (fun name => negb (is_reserved name)) __all__ = true
  /\ star_import
     = (["Executor"; "ExecutorDriver"; "Scheduler"; "SchedulerDriver"],
        Import_raises AttributeError)
  /\ In "OperatorAgentDriver" __all__
  /\ In "OperatorAgentDriver" module_globals.
Proof.
  intros Hnames.
  split; [apply import_names_succeeds; exact Hnames|].
  split; [intros H; apply (import_names_bound names module_globals [] H)|].
  split; [apply import_names_ends; exact Hnames|].
  split; [reflexivity|].
  split; [reflexivity|].
  split; vm_compute; auto 20.
Qed.

(** On an export list of names the module does bind. *)
Lemma star_import_witness :
  fst (import_names ["Scheduler"; "Executor"] module_globals [])
  = ["Scheduler"; "Executor"].
Proof.
  exact (proj1 (proj2 (star_import_fails ["Scheduler"; "Executor"] eq_refl)) eq_refl).
Defined.
